(** * tealsp: the TEAL language-server / debugger bridge

    A shallow embedding of [runLsp], [runDbg] and [main] of the [tealsp]
    command, and of the diagnostics handler that [runLsp] registers.

    The Go packages the command imports ([logic], [teal], [lsp], [dbg],
    [net], [os], [encoding/json], [flag], [pkg/errors]) are external to the
    command; what the command observes of them is modelled by small data
    types and by an explicit record of oracles, [World]. *)

From Stdlib Require Import ZArith List String Ascii Bool Lia.
Import ListNotations.

Local Open Scope Z_scope.

(** ** Go's [int]

    [int] is a 64-bit two's-complement integer; arithmetic wraps around. *)

Module GoInt.

Definition min_int : Z := - 2 ^ 63.
Definition max_int : Z := 2 ^ 63 - 1.

Definition in_range (z : Z) : Prop := min_int <= z <= max_int.

Definition wrap (z : Z) : Z := (z + 2 ^ 63) mod 2 ^ 64 - 2 ^ 63.

(** [x--] *)
Definition dec (z : Z) : Z := wrap (z - 1).

End GoInt.

(** ** Go's [error] values

    An [error] is observed through its [Error()] text only.  The command
    builds errors with [errors.Wrap] of [pkg/errors], whose text is the
    message, a colon and a space, and the text of the cause. *)

Inductive error : Type :=
| errors_New (msg : string)
| errors_Wrap (cause : error) (msg : string).

Fixpoint Error (e : error) : string :=
  match e with
  | errors_New msg => msg
  | errors_Wrap cause msg => (msg ++ ": " ++ Error cause)%string
  end.

(** ** Package [logic]: what the assembler returns

    [logic.AssembleString] returns an [*OpStream] and an [error].  Of the
    [OpStream] the handler reads [Errors] and [Warnings].  An element of
    [Errors] carries [Line] and [Column] (Go [int]) and the wrapped cause
    that [Unwrap()] returns; an element of [Warnings] is read through
    [Error()] only.  The handler dereferences the [*OpStream] without a
    check: the assembler returns one with every answer. *)

Module logic.

Record sourceError : Type := {
  Line : Z;
  Column : Z;
  Err : error
}.

Definition Unwrap (e : sourceError) : error := Err e.

Record OpStream : Type := {
  Errors : list sourceError;
  Warnings : list error
}.

End logic.

(** ** Package [teal]: severities *)

Module teal.

(** Modelled from the spec: the declaration of the severity constants
    [teal.DiagErr] and [teal.DiagWarn] is not part of the command; the data
    model gives a diagnostic's severity as one of Error and Warning. *)
Inductive DiagnosticSeverity : Type :=
| DiagErr
| DiagWarn.

End teal.

(** ** Package [lsp]: protocol-shaped diagnostics *)

Module lsp.

Record LspPosition : Type := {
  Line : Z;
  Character : Z
}.

(** The field [End] of the source is [End_] here. *)
Record LspRange : Type := {
  Start : LspPosition;
  End_ : LspPosition
}.

(** [Severity] is a pointer in the source: [None] is the nil pointer. *)
Record LspDiagnostic : Type := {
  Range : LspRange;
  Severity : option teal.DiagnosticSeverity;
  Message : string
}.

End lsp.

Import lsp.

(** ** The diagnostics handler registered by [runLsp]

    The closure passed to [lsp.WithPrepareDiagnosticsHandler], block by
    block.  [res] is the slice being appended to. *)

Definition zeroPosition : LspPosition := {| Line := 0; Character := 0 |}.

(** The block guarded by [err != nil]: the fallback diagnostic. *)
Definition appendFallback (ops : logic.OpStream) (err : option error)
    (res : list LspDiagnostic) : list LspDiagnostic :=
  match err with
  | Some _ =>
      if (Nat.eqb (List.length (logic.Errors ops)) 0
          && Nat.eqb (List.length (logic.Warnings ops)) 0)%bool
      then
        match err with
        | Some e =>
            let sev := teal.DiagErr in
            res ++ [ {| Range := {| Start := {| Line := 0; Character := 0 |};
                                    End_ := {| Line := 0; Character := 0 |} |};
                        Severity := Some sev;
                        Message := Error e |} ]
        | None => res
        end
      else res
  | None => res
  end.

(** The body of [for _, e := range ops.Errors]. *)
Definition errorDiagnostic (e : logic.sourceError) : LspDiagnostic :=
  let l := logic.Line e in
  let c := logic.Column e in
  let l := if l =? 0 then l else GoInt.dec l in
  let c := if c =? 0 then c else GoInt.dec c in
  let sev := teal.DiagErr in
  {| Range := {| Start := {| Line := l; Character := c |};
                 End_ := {| Line := l; Character := c |} |};
     Severity := Some sev;
     Message := Error (logic.Unwrap e) |}.

(** The body of [for _, w := range ops.Warnings]. *)
Definition warningDiagnostic (w : error) : LspDiagnostic :=
  let sev := teal.DiagWarn in
  {| Range := {| Start := {| Line := 0; Character := 0 |};
                 End_ := {| Line := 0; Character := 0 |} |};
     Severity := Some sev;
     Message := Error w |}.

(** The handler's body after the call of the assembler. *)
Definition translate (ops : logic.OpStream) (err : option error)
  : list LspDiagnostic :=
  let res := [] in
  let res := appendFallback ops err res in
  let res := fold_left (fun res e => res ++ [errorDiagnostic e])
                       (logic.Errors ops) res in
  let res := fold_left (fun res w => res ++ [warningDiagnostic w])
                       (logic.Warnings ops) res in
  res.

(** The handler: assemble, then translate. *)
Definition prepareDiagnostics
    (AssembleString : string -> logic.OpStream * option error)
    (source : string) : list LspDiagnostic :=
  let '(ops, err) := AssembleString source in
  translate ops err.

(** ** The translation as the specification words it

    [fallback?] ++ errors ++ warnings. *)

Definition fallbackDiagnostic (msg : string) : LspDiagnostic :=
  {| Range := {| Start := zeroPosition; End_ := zeroPosition |};
     Severity := Some teal.DiagErr;
     Message := msg |}.

Definition specFallback (ops : logic.OpStream) (err : option error)
  : list LspDiagnostic :=
  match err, logic.Errors ops, logic.Warnings ops with
  | Some e, [], [] => [fallbackDiagnostic (Error e)]
  | _, _, _ => []
  end.

Definition specTranslate (ops : logic.OpStream) (err : option error)
  : list LspDiagnostic :=
  specFallback ops err
  ++ map errorDiagnostic (logic.Errors ops)
  ++ map warningDiagnostic (logic.Warnings ops).

(** ** Package [flag] of the Go standard library, for string flags

    [main] registers string flags only and parses with the default flag set,
    whose error handling is [ExitOnError].  A flag set is the list of the
    registered names, each with the assignment that [StringVar] bound to it;
    [A] is the structure the flags are stored in. *)

Module flag.

Definition FlagSet (A : Type) : Type := list (string * (string -> A -> A)).

Fixpoint formal {A} (f : FlagSet A) (name : string)
  : option (string -> A -> A) :=
  match f with
  | [] => None
  | (n, set) :: f' => if (n =? name)%string then Some set else formal f' name
  end.

(** The first ['='] of [s]: the text before it and the text after it. *)
Fixpoint cutAtEquals (s : string) : option (string * string) :=
  match s with
  | EmptyString => None
  | String c s' =>
      if (c =? "=")%char then Some (EmptyString, s')
      else match cutAtEquals s' with
           | Some (n, v) => Some (String c n, v)
           | None => None
           end
  end.

(** The loop [for i := 1; i < len(name); i++]: an ['='] cannot be first. *)
Definition splitValue (name : string) : string * option string :=
  match name with
  | EmptyString => (name, None)
  | String c rest =>
      match cutAtEquals rest with
      | Some (n, v) => (String c n, Some v)
      | None => (name, None)
      end
  end.

Inductive result (A : Type) : Type :=
| Parsed (a : A) (rest : list string)
| Exits (code : Z).

Arguments Parsed {A} a rest.
Arguments Exits {A} code.

(** [Parse]: [parseOne] until it sees no flag; an error exits with status 2,
    an undefined [-h] or [-help] with status 0. *)
Fixpoint Parse {A} (f : FlagSet A) (args : list string) (a : A) : result A :=
  match args with
  | [] => Parsed a []
  | s :: args' =>
      match s with
      | String "-" (String c1 s2 as s1) =>
          if ((c1 =? "-")%char && (s2 =? "")%string)%bool then Parsed a args'
          else
            let name := if (c1 =? "-")%char then s2 else s1 in
            match name with
            | EmptyString => Exits 2
            | String n0 _ =>
                if ((n0 =? "-")%char || (n0 =? "=")%char)%bool then Exits 2
                else
                  let '(name, value) := splitValue name in
                  match formal f name with
                  | None =>
                      if ((name =? "help")%string || (name =? "h")%string)%bool
                      then Exits 0 else Exits 2
                  | Some set =>
                      match value with
                      | Some v => Parse f args' (set v a)
                      | None =>
                          match args' with
                          | v :: args'' => Parse f args'' (set v a)
                          | [] => Exits 2
                          end
                      end
                  end
            end
      | _ => Parsed a args
      end
  end.

End flag.

(** ** The process: oracles, events and the construction monad

    The handles and decoded values of the external packages are opaque to
    the command: they are the type variables of this section.  Every call
    into the outside world is recorded as an [event]; the oracles of
    [World] answer a call given the events so far. *)

Section Process.

Variables Conn File DbgConfig SimulateResponse Lsp Dbg : Type.

(** An [io.Reader] or [io.Writer] handed to [lsp.New] or [dbg.New]. *)
Inductive Stream : Type :=
| os_Stdin
| os_Stdout
| conn (c : Conn).

Inductive LspOption : Type :=
| lsp_WithDebug (f : File)
| lsp_WithPrepareDiagnosticsHandler (h : string -> list LspDiagnostic).

Inductive DbgOption : Type :=
| dbg_WithDebug (f : File)
| dbg_WithConfig (cfg : DbgConfig)
| dbg_WithAlgod (algod algodToken : string)
| dbg_WithReplay (rpl : SimulateResponse).

Inductive event : Type :=
| EvDial (network address : string)
| EvCreate (name : string)
| EvReadFile (name : string)
| EvUnmarshal (bs : list Byte.byte)
| EvLspNew (r w : Stream) (opts : list LspOption)
| EvLspRun
| EvDbgNew (r w : Stream) (opts : list DbgOption)
| EvDbgRun.

Definition trace : Type := list event.

Record World : Type := {
  net_Dial : trace -> string -> string -> Conn + error;
  os_Create : trace -> string -> File + error;
  os_ReadFile : trace -> string -> list Byte.byte + error;
  json_Unmarshal_DbgConfig : trace -> list Byte.byte -> DbgConfig + error;
  json_Unmarshal_SimulateResponse :
    trace -> list Byte.byte -> SimulateResponse + error;
  logic_AssembleString : string -> logic.OpStream * option error;
  lsp_New : trace -> Stream -> Stream -> list LspOption -> Lsp + error;
  lsp_Run : trace -> Lsp -> Z * option error;
  dbg_New : trace -> Stream -> Stream -> list DbgOption -> Dbg + error;
  dbg_Run : trace -> Dbg -> Z * option error
}.

(** What [runLsp] and [runDbg] return: [(int, error)]. *)
Definition Exit : Type := (Z * option error)%type.

(** A computation that reads and extends the trace and either goes on with
    a value or returns from the enclosing function. *)
Definition M (A : Type) : Type := trace -> (A + Exit) * trace.

Definition ret {A} (a : A) : M A := fun t => (inl a, t).

Definition bind {A B} (m : M A) (k : A -> M B) : M B :=
  fun t =>
    match m t with
    | (inl a, t') => k a t'
    | (inr x, t') => (inr x, t')
    end.

(** [return code, err] *)
Definition return_ {A} (code : Z) (err : option error) : M A :=
  fun t => (inr (code, err), t).

(** A call into the outside world: the oracle sees the trace so far. *)
Definition call {R} (ev : event) (oracle : trace -> R) : M R :=
  fun t => (inl (oracle t), t ++ [ev]).

(** The [(int, error)] a function returns, and the trace it leaves. *)
Definition exec (m : M Exit) (t : trace) : Exit * trace :=
  match m t with
  | (inl x, t') => (x, t')
  | (inr x, t') => (x, t')
  end.

Notation "x <- m ;; k" := (bind m (fun x => k))
  (at level 61, m at next level, right associativity).

Record lspArgs : Type := {
  lsp_Debug : string;
  Addr : string;
  Net : string
}.

Record dbgArgs : Type := {
  Debug : string;
  Config : string;
  Algod : string;
  AlgodToken : string;
  Replay : string
}.

Variable W : World.

(** [s != ""] *)
Definition nonEmpty (s : string) : bool := negb (s =? "")%string.

(** *** [runLsp] *)

(** The choice of [r] and [w]: dial, or standard input and output. *)
Definition runLsp_transport (a : lspArgs) : M (Stream * Stream) :=
  if (nonEmpty (Addr a) && nonEmpty (Net a))%bool then
    c <- call (EvDial (Net a) (Addr a))
              (fun t => net_Dial W t (Net a) (Addr a)) ;;
    match c with
    | inr err =>
        return_ (-1) (Some (errors_Wrap err "failed to connect to the client"))
    | inl c => ret (conn c, conn c)
    end
  else ret (os_Stdin, os_Stdout).

(** The option list: the debug sink if asked for, then the handler. *)
Definition runLsp_options (a : lspArgs) : M (list LspOption) :=
  let opts := [] in
  opts <- (if nonEmpty (lsp_Debug a) then
             f <- call (EvCreate (lsp_Debug a))
                       (fun t => os_Create W t (lsp_Debug a)) ;;
             match f with
             | inr err =>
                 return_ (-2)
                   (Some (errors_Wrap err "failed to create debug output file"))
             | inl f => ret (opts ++ [lsp_WithDebug f])
             end
           else ret opts) ;;
  ret (opts ++ [lsp_WithPrepareDiagnosticsHandler
                  (prepareDiagnostics (logic_AssembleString W))]).

Definition runLsp (a : lspArgs) : M Exit :=
  rw <- runLsp_transport a ;;
  let '(r, w) := rw in
  opts <- runLsp_options a ;;
  l <- call (EvLspNew r w opts) (fun t => lsp_New W t r w opts) ;;
  match l with
  | inr err => return_ (-3) (Some (errors_Wrap err "failed to create lsp"))
  | inl l => call EvLspRun (fun t => lsp_Run W t l)
  end.

(** *** [runDbg] *)

(** The four optional inputs, in the order of the source text. *)
Definition runDbg_options (a : dbgArgs) : M (list DbgOption) :=
  let opts := [] in
  opts <- (if nonEmpty (Debug a) then
             f <- call (EvCreate (Debug a))
                       (fun t => os_Create W t (Debug a)) ;;
             match f with
             | inr err =>
                 return_ (-2)
                   (Some (errors_Wrap err "failed to create debug output file"))
             | inl f => ret (opts ++ [dbg_WithDebug f])
             end
           else ret opts) ;;
  opts <- (if nonEmpty (Config a) then
             bs <- call (EvReadFile (Config a))
                        (fun t => os_ReadFile W t (Config a)) ;;
             match bs with
             | inr err =>
                 return_ (-3)
                   (Some (errors_Wrap err "failed to read config file"))
             | inl bs =>
                 cfg <- call (EvUnmarshal bs)
                             (fun t => json_Unmarshal_DbgConfig W t bs) ;;
                 match cfg with
                 | inr err =>
                     return_ (-4)
                       (Some (errors_Wrap err "failed to unmarshal config file"))
                 | inl cfg => ret (opts ++ [dbg_WithConfig cfg])
                 end
             end
           else ret opts) ;;
  opts <- (if nonEmpty (Algod a) then
             ret (opts ++ [dbg_WithAlgod (Algod a) (AlgodToken a)])
           else ret opts) ;;
  opts <- (if nonEmpty (Replay a) then
             bs <- call (EvReadFile (Replay a))
                        (fun t => os_ReadFile W t (Replay a)) ;;
             match bs with
             | inr err =>
                 return_ (-5)
                   (Some (errors_Wrap err "failed to read replay file"))
             | inl bs =>
                 rpl <- call (EvUnmarshal bs)
                             (fun t => json_Unmarshal_SimulateResponse W t bs) ;;
                 match rpl with
                 | inr err =>
                     return_ (-6)
                       (Some (errors_Wrap err "failed to unmarshal replay file"))
                 | inl rpl => ret (opts ++ [dbg_WithReplay rpl])
                 end
             end
           else ret opts) ;;
  ret opts.

Definition runDbg (a : dbgArgs) : M Exit :=
  let r := os_Stdin in
  let w := os_Stdout in
  opts <- runDbg_options a ;;
  l <- call (EvDbgNew r w opts) (fun t => dbg_New W t r w opts) ;;
  match l with
  | inr err => return_ (-3) (Some (errors_Wrap err "failed to create dbg"))
  | inl l => call EvDbgRun (fun t => dbg_Run W t l)
  end.

(** *** [main] *)

(** How the process ends: [os.Exit(code)] or [panic(err)]. *)
Inductive Outcome : Type :=
| os_Exit (code : Z)
| panic (err : error).

Definition dbgFlags : flag.FlagSet dbgArgs :=
  [ ("debug"%string,
     fun v a => {| Debug := v; Config := Config a; Algod := Algod a;
                   AlgodToken := AlgodToken a; Replay := Replay a |});
    ("config"%string,
     fun v a => {| Debug := Debug a; Config := v; Algod := Algod a;
                   AlgodToken := AlgodToken a; Replay := Replay a |});
    ("algod"%string,
     fun v a => {| Debug := Debug a; Config := Config a; Algod := v;
                   AlgodToken := AlgodToken a; Replay := Replay a |});
    ("algod-token"%string,
     fun v a => {| Debug := Debug a; Config := Config a; Algod := Algod a;
                   AlgodToken := v; Replay := Replay a |});
    ("replay"%string,
     fun v a => {| Debug := Debug a; Config := Config a; Algod := Algod a;
                   AlgodToken := AlgodToken a; Replay := v |}) ].

(** The values [StringVar] stores at registration. *)
Definition dbgDefaults : dbgArgs :=
  {| Debug := ""; Config := "";
     Algod := "https://testnet-api.algonode.cloud";
     AlgodToken := ""; Replay := "" |}.

Definition lspFlags : flag.FlagSet lspArgs :=
  [ ("net"%string,
     fun v a => {| lsp_Debug := lsp_Debug a; Addr := Addr a; Net := v |});
    ("addr"%string,
     fun v a => {| lsp_Debug := lsp_Debug a; Addr := v; Net := Net a |});
    ("debug"%string,
     fun v a => {| lsp_Debug := v; Addr := Addr a; Net := Net a |}) ].

Definition lspDefaults : lspArgs :=
  {| lsp_Debug := ""; Addr := ""; Net := "tcp" |}.

(** [code, err := run(a)], then [panic(err)] or [os.Exit(code)]. *)
Definition finish (m : M Exit) (t : trace) : Outcome * trace :=
  let '((code, err), t') := exec m t in
  match err with
  | Some err => (panic err, t')
  | None => (os_Exit code, t')
  end.

(** [os.Args] is the program name [prog] followed by [args]. *)
Definition main (prog : string) (args : list string) (t : trace)
  : Outcome * trace :=
  match args with
  | mode :: args' =>
      if (mode =? "dbg")%string then
        match flag.Parse dbgFlags args' dbgDefaults with
        | flag.Exits code => (os_Exit code, t)
        | flag.Parsed a _ => finish (runDbg a) t
        end
      else
        match flag.Parse lspFlags args lspDefaults with
        | flag.Exits code => (os_Exit code, t)
        | flag.Parsed a _ => finish (runLsp a) t
        end
  | [] =>
      match flag.Parse lspFlags args lspDefaults with
      | flag.Exits code => (os_Exit code, t)
      | flag.Parsed a _ => finish (runLsp a) t
      end
  end.

(** *** What a trace shows *)

(** The dial attempts of a trace, in order. *)
Fixpoint dials (t : trace) : list (string * string) :=
  match t with
  | [] => []
  | EvDial n a :: t' => (n, a) :: dials t'
  | _ :: t' => dials t'
  end.

(** The streams and option lists handed to [lsp.New]. *)
Fixpoint lspNews (t : trace) : list (Stream * Stream * list LspOption) :=
  match t with
  | [] => []
  | EvLspNew r w opts :: t' => (r, w, opts) :: lspNews t'
  | _ :: t' => lspNews t'
  end.

(** The option lists handed to [dbg.New]. *)
Fixpoint dbgNews (t : trace) : list (list DbgOption) :=
  match t with
  | [] => []
  | EvDbgNew _ _ opts :: t' => opts :: dbgNews t'
  | _ :: t' => dbgNews t'
  end.

Definition isAlgod (o : DbgOption) : bool :=
  match o with dbg_WithAlgod _ _ => true | _ => false end.

Definition isReplay (o : DbgOption) : bool :=
  match o with dbg_WithReplay _ => true | _ => false end.

(** The place of an option's kind in the order of the resolver. *)
Definition rank (o : DbgOption) : nat :=
  match o with
  | dbg_WithDebug _ => 0
  | dbg_WithConfig _ => 1
  | dbg_WithAlgod _ _ => 2
  | dbg_WithReplay _ => 3
  end.

(** The files a trace creates or reads, in order. *)
Fixpoint touched (t : trace) : list string :=
  match t with
  | [] => []
  | EvCreate name :: t' => name :: touched t'
  | EvReadFile name :: t' => name :: touched t'
  | _ :: t' => touched t'
  end.

(** Whether the input of a given rank was supplied: the four guards of
    [runDbg], by the rank of the option each one appends. *)
Definition present (a : dbgArgs) (k : nat) : bool :=
  match k with
  | 0%nat => nonEmpty (Debug a)
  | 1%nat => nonEmpty (Config a)
  | 2%nat => nonEmpty (Algod a)
  | _ => nonEmpty (Replay a)
  end.

End Process.

Arguments os_Stdin {Conn}.
Arguments os_Stdout {Conn}.
Arguments conn {Conn} c.
Arguments lsp_WithDebug {File} f.
Arguments lsp_WithPrepareDiagnosticsHandler {File} h.
Arguments dbg_WithDebug {File DbgConfig SimulateResponse} f.
Arguments dbg_WithConfig {File DbgConfig SimulateResponse} cfg.
Arguments dbg_WithAlgod {File DbgConfig SimulateResponse} algod algodToken.
Arguments dbg_WithReplay {File DbgConfig SimulateResponse} rpl.
Arguments EvDial {Conn File DbgConfig SimulateResponse} network address.
Arguments EvCreate {Conn File DbgConfig SimulateResponse} name.
Arguments EvReadFile {Conn File DbgConfig SimulateResponse} name.
Arguments EvUnmarshal {Conn File DbgConfig SimulateResponse} bs.
Arguments EvLspNew {Conn File DbgConfig SimulateResponse} r w opts.
Arguments EvLspRun {Conn File DbgConfig SimulateResponse}.
Arguments EvDbgNew {Conn File DbgConfig SimulateResponse} r w opts.
Arguments EvDbgRun {Conn File DbgConfig SimulateResponse}.
Arguments net_Dial {Conn File DbgConfig SimulateResponse Lsp Dbg} w t _ _.
Arguments os_Create {Conn File DbgConfig SimulateResponse Lsp Dbg} w t _.
Arguments os_ReadFile {Conn File DbgConfig SimulateResponse Lsp Dbg} w t _.
Arguments json_Unmarshal_DbgConfig
  {Conn File DbgConfig SimulateResponse Lsp Dbg} w t _.
Arguments json_Unmarshal_SimulateResponse
  {Conn File DbgConfig SimulateResponse Lsp Dbg} w t _.
Arguments logic_AssembleString
  {Conn File DbgConfig SimulateResponse Lsp Dbg} w _.
Arguments lsp_New {Conn File DbgConfig SimulateResponse Lsp Dbg} w t _ _ _.
Arguments lsp_Run {Conn File DbgConfig SimulateResponse Lsp Dbg} w t _.
Arguments dbg_New {Conn File DbgConfig SimulateResponse Lsp Dbg} w t _ _ _.
Arguments dbg_Run {Conn File DbgConfig SimulateResponse Lsp Dbg} w t _.
Arguments ret {Conn File DbgConfig SimulateResponse A} a _.
Arguments bind {Conn File DbgConfig SimulateResponse A B} m k _.
Arguments return_ {Conn File DbgConfig SimulateResponse A} code err _.
Arguments call {Conn File DbgConfig SimulateResponse R} ev oracle _.
Arguments exec {Conn File DbgConfig SimulateResponse} m t.
Arguments runLsp_transport {Conn File DbgConfig SimulateResponse Lsp Dbg} W a _.
Arguments runLsp_options {Conn File DbgConfig SimulateResponse Lsp Dbg} W a _.
Arguments runLsp {Conn File DbgConfig SimulateResponse Lsp Dbg} W a _.
Arguments runDbg_options {Conn File DbgConfig SimulateResponse Lsp Dbg} W a _.
Arguments runDbg {Conn File DbgConfig SimulateResponse Lsp Dbg} W a _.
Arguments finish {Conn File DbgConfig SimulateResponse} m t.
Arguments main {Conn File DbgConfig SimulateResponse Lsp Dbg} W prog args t.
Arguments dials {Conn File DbgConfig SimulateResponse} t.
Arguments lspNews {Conn File DbgConfig SimulateResponse} t.
Arguments dbgNews {Conn File DbgConfig SimulateResponse} t.
Arguments touched {Conn File DbgConfig SimulateResponse} t.
Arguments isAlgod {File DbgConfig SimulateResponse} o.
Arguments isReplay {File DbgConfig SimulateResponse} o.
Arguments rank {File DbgConfig SimulateResponse} o.

(** ** Sample worlds

    Handles are names; a decoded value is the bytes it was decoded from.
    [files] are the readable files, every path can be created, [dial] says
    whether a dial succeeds and [session] whether the runtime accepts the
    options.  The sessions run to a clean shutdown. *)

Module Sample.

Definition Conn : Type := (string * string)%type.
Definition File : Type := string.
Definition Json : Type := list Byte.byte.

Fixpoint readFile (files : list (string * Json)) (name : string)
  : Json + error :=
  match files with
  | [] => inr (errors_New "no such file or directory")
  | (n, bs) :: files' =>
      if (n =? name)%string then inl bs else readFile files' name
  end.

(** Decoding fails on an empty input. *)
Definition decode (bs : Json) : Json + error :=
  match bs with
  | [] => inr (errors_New "unexpected end of JSON input")
  | _ => inl bs
  end.

Definition world (files : list (string * Json)) (dial session : bool)
  : World Conn File Json Json unit unit := {|
  net_Dial := fun _ n a =>
    if dial then inl (n, a) else inr (errors_New "connection refused");
  os_Create := fun _ name => inl name;
  os_ReadFile := fun _ name => readFile files name;
  json_Unmarshal_DbgConfig := fun _ bs => decode bs;
  json_Unmarshal_SimulateResponse := fun _ bs => decode bs;
  logic_AssembleString := fun _ =>
    ({| logic.Errors := []; logic.Warnings := [] |}, None);
  lsp_New := fun _ _ _ _ =>
    if session then inl tt else inr (errors_New "rejected");
  lsp_Run := fun _ _ => (0, None);
  dbg_New := fun _ _ _ _ =>
    if session then inl tt else inr (errors_New "rejected");
  dbg_Run := fun _ _ => (0, None)
|}.

Definition cfgBytes : Json := [Byte.x7b; Byte.x7d].
Definition rplBytes : Json := [Byte.x7b; Byte.x20; Byte.x7d].

Definition files : list (string * Json) :=
  [ ("c.json"%string, cfgBytes); ("r.json"%string, rplBytes) ].

(** An assembler result with one error at line 3, column 5. *)
Definition undefinedLabel : logic.sourceError :=
  {| logic.Line := 3; logic.Column := 5;
     logic.Err := errors_New "undefined label" |}.

Definition oneError : logic.OpStream :=
  {| logic.Errors := [undefinedLabel]; logic.Warnings := [] |}.

(** A failure that is not localized, with a warning of the same text. *)
Definition boom : error := errors_New "boom".

Definition warned : logic.OpStream :=
  {| logic.Errors := []; logic.Warnings := [boom] |}.

(** A failure with neither error nor warning. *)
Definition bare : logic.OpStream :=
  {| logic.Errors := []; logic.Warnings := [] |}.

(** Arguments of the debugger mode. *)
Definition replayOnly : dbgArgs :=
  {| Debug := ""; Config := ""; Algod := ""; AlgodToken := "";
     Replay := "r.json" |}.

Definition liveOnly : dbgArgs :=
  {| Debug := ""; Config := ""; Algod := "http://localhost:4001";
     AlgodToken := "secret"; Replay := "" |}.

Definition configOnly : dbgArgs :=
  {| Debug := ""; Config := "c.json"; Algod := ""; AlgodToken := "";
     Replay := "" |}.

Definition allFour : dbgArgs :=
  {| Debug := "d.log"; Config := "c.json"; Algod := "http://localhost:4001";
     AlgodToken := ""; Replay := "r.json" |}.

Definition noInputs : dbgArgs :=
  {| Debug := ""; Config := ""; Algod := ""; AlgodToken := "";
     Replay := "" |}.

(** Arguments of the editor-protocol mode. *)
Definition dialed : lspArgs :=
  {| lsp_Debug := ""; Addr := "127.0.0.1:9000"; Net := "tcp" |}.

End Sample.

(** ** More of what a trace shows *)

Section Observations.

Context {Conn File DbgConfig SimulateResponse : Type}.

Implicit Types t : trace Conn File DbgConfig SimulateResponse.

(** The streams handed to [dbg.New]. *)
Fixpoint dbgNewStreams t : list (Stream Conn * Stream Conn) :=
  match t with
  | [] => []
  | EvDbgNew r w _ :: t' => (r, w) :: dbgNewStreams t'
  | _ :: t' => dbgNewStreams t'
  end.

(** How many times a session was run. *)
Fixpoint runs t : nat :=
  match t with
  | [] => 0
  | EvLspRun :: t' => S (runs t')
  | EvDbgRun :: t' => S (runs t')
  | _ :: t' => runs t'
  end.

End Observations.

(** ** The [main] of [cmd/tealsp/main.go]

    The command as it was before the debugger mode: the same [lspArgs],
    the same [runLsp], the same three flags, and no look at the first
    argument. *)

Module tealsp.

Section Main.

Context {Conn File DbgConfig SimulateResponse Lsp Dbg : Type}.
Variable W : World Conn File DbgConfig SimulateResponse Lsp Dbg.

Definition main (prog : string) (args : list string)
    (t : trace Conn File DbgConfig SimulateResponse)
  : Outcome * trace Conn File DbgConfig SimulateResponse :=
  match flag.Parse lspFlags args lspDefaults with
  | flag.Exits code => (os_Exit code, t)
  | flag.Parsed a _ => finish (runLsp W a) t
  end.

End Main.

End tealsp.

(** More sample inputs. *)

Module More.



Definition sinkOnly : lspArgs :=
  {| lsp_Debug := "x.log"; Addr := ""; Net := "tcp" |}.

(** A token without an address. *)
Definition tokenOnly : dbgArgs :=
  {| Debug := ""; Config := ""; Algod := ""; AlgodToken := "secret";
     Replay := "" |}.


Definition atLine (l c : Z) : logic.sourceError :=
  {| logic.Line := l; logic.Column := c; logic.Err := errors_New "e" |}.

End More.

(** ** Proof steps

    One case split on the next guard or oracle answer of a run that is
    known to have given a value. *)
Ltac branch H :=
  match type of H with
  | context [if ?b then _ else _] => destruct b eqn:?
  | context [match ?x with inl _ => _ | inr _ => _ end] => destruct x eqn:?
  end; simpl in H; try discriminate H.

Ltac branches H := repeat branch H.

(** The same on a goal: every guard, oracle answer and returned pair. *)
Ltac outcomes :=
  repeat match goal with
         | |- context [if ?b then _ else _] => destruct b; simpl
         | |- context [match ?x with inl _ => _ | inr _ => _ end] =>
             destruct x; simpl
         | |- context [let (_, _) := ?x in _] => destruct x; simpl
         end.

(** * Properties *)

(** ** Go's [int] *)

Lemma wrap_in_range z : GoInt.in_range z -> GoInt.wrap z = z.
Proof.
  unfold GoInt.in_range, GoInt.wrap, GoInt.min_int, GoInt.max_int. intros H.
  rewrite Z.mod_small; lia.
Qed.

Lemma dec_positive z : GoInt.in_range z -> 0 < z -> GoInt.dec z = z - 1.
Proof.
  unfold GoInt.dec. intros H Hz. apply wrap_in_range.
  unfold GoInt.in_range, GoInt.min_int, GoInt.max_int in *. lia.
Qed.

(** ** The diagnostics translator *)

Section Translator.

Implicit Types (ops : logic.OpStream) (err : option error).
Implicit Types (e : logic.sourceError) (d : LspDiagnostic) (x : error).

(** A loop that appends one element per item is a [map]. *)
Lemma append_loop {A B} (f : A -> B) (l : list A) (res : list B) :
  fold_left (fun res a => res ++ [f a]) l res = res ++ map f l.
Proof.
  revert res. induction l as [|a l IH]; intros res; simpl.
  - now rewrite app_nil_r.
  - rewrite IH, <- app_assoc. reflexivity.
Qed.

Lemma appendFallback_spec ops err res :
  appendFallback ops err res = res ++ specFallback ops err.
Proof.
  unfold appendFallback, specFallback.
  destruct err as [x|]; [|now rewrite app_nil_r].
  destruct (logic.Errors ops) as [|e1 es]; simpl;
    [|now rewrite app_nil_r].
  destruct (logic.Warnings ops) as [|w ws]; simpl;
    [reflexivity|now rewrite app_nil_r].
Qed.

Lemma translate_spec ops err : translate ops err = specTranslate ops err.
Proof.
  unfold translate, specTranslate.
  rewrite !append_loop, appendFallback_spec, app_assoc. reflexivity.
Qed.

(** The handler is the translation of what the assembler returns. *)
Lemma prepareDiagnostics_translate AssembleString source :
  prepareDiagnostics AssembleString source
  = translate (fst (AssembleString source)) (snd (AssembleString source)).
Proof.
  unfold prepareDiagnostics. now destruct (AssembleString source).
Qed.

Lemma specFallback_cases ops err :
  (exists x, err = Some x /\ logic.Errors ops = [] /\ logic.Warnings ops = []
             /\ specFallback ops err = [fallbackDiagnostic (Error x)])
  \/ ((err = None \/ logic.Errors ops <> [] \/ logic.Warnings ops <> [])
      /\ specFallback ops err = []).
Proof.
  unfold specFallback.
  destruct err as [x|]; [|right; auto].
  destruct (logic.Errors ops) as [|e es]; [|right; split; [right; left|]; easy].
  destruct (logic.Warnings ops) as [|w ws];
    [|right; split; [right; right|]; easy].
  left. exists x. auto.
Qed.

(** C3.  A structured error whose line and column are Go [int]s is
    translated to a zero-width diagnostic of the handler's output whose line
    is [line - 1] when [line > 0] and [0] when [line = 0], and whose
    character is [column - 1] when [column > 0] and [0] when [column = 0];
    a coordinate that is not negative is not made negative. *)
Theorem errorDiagnostic_position ops err e :
  In e (logic.Errors ops) ->
  GoInt.in_range (logic.Line e) ->
  GoInt.in_range (logic.Column e) ->
  In (errorDiagnostic e) (translate ops err)
  /\ (0 < logic.Line e -> 0 < logic.Column e ->
      Start (Range (errorDiagnostic e))
      = {| Line := logic.Line e - 1; Character := logic.Column e - 1 |})
  /\ (0 < logic.Line e ->
      Line (Start (Range (errorDiagnostic e))) = logic.Line e - 1)
  /\ (0 < logic.Column e ->
      Character (Start (Range (errorDiagnostic e))) = logic.Column e - 1)
  /\ (logic.Line e = 0 -> Line (Start (Range (errorDiagnostic e))) = 0)
  /\ (logic.Column e = 0 ->
      Character (Start (Range (errorDiagnostic e))) = 0)
  /\ (0 <= logic.Line e -> 0 <= Line (Start (Range (errorDiagnostic e))))
  /\ (0 <= logic.Column e ->
      0 <= Character (Start (Range (errorDiagnostic e))))
  /\ End_ (Range (errorDiagnostic e)) = Start (Range (errorDiagnostic e)).
Proof.
  intros Hin Hl Hc.
  split.
  { rewrite translate_spec. unfold specTranslate.
    apply in_or_app. right. apply in_or_app. left. now apply in_map. }
  unfold errorDiagnostic; simpl.
  destruct (Z.eqb_spec (logic.Line e) 0) as [El|Nl];
    destruct (Z.eqb_spec (logic.Column e) 0) as [Ec|Nc];
    repeat split; intros;
    rewrite ?dec_positive by (assumption || lia); try lia; try reflexivity;
    try (f_equal; lia).
Qed.

(** C4.  The fallback block appends a diagnostic exactly when there is a
    top-level failure and the result has no structured error and no warning;
    it appends nothing when there is a structured error; what it appends is
    one diagnostic at (0,0)-(0,0) of severity Error whose message is the
    failure text, and the handler's output starts with what it appends. *)
Theorem fallback_exactly_when_unlocalized ops err :
  (appendFallback ops err [] <> []
   <-> (err <> None /\ logic.Errors ops = [] /\ logic.Warnings ops = []))
  /\ (logic.Errors ops <> [] -> appendFallback ops err [] = [])
  /\ (forall d, In d (appendFallback ops err []) ->
      appendFallback ops err [] = [d]
      /\ Range d = {| Start := {| Line := 0; Character := 0 |};
                      End_ := {| Line := 0; Character := 0 |} |}
      /\ Severity d = Some teal.DiagErr
      /\ exists x, err = Some x /\ Message d = Error x)
  /\ translate ops err
     = appendFallback ops err []
       ++ map errorDiagnostic (logic.Errors ops)
       ++ map warningDiagnostic (logic.Warnings ops).
Proof.
  assert (Ht := translate_spec ops err). unfold specTranslate in Ht.
  rewrite appendFallback_spec. simpl.
  destruct (specFallback_cases ops err)
    as [(x & -> & He & Hw & ->) | (Hc & ->)].
  - split; [split; [intros _; repeat split; easy|easy]|].
    split; [intros H; congruence|].
    split.
    + intros d [<-|[]]. repeat split. exists x. auto.
    + rewrite Ht. unfold specFallback. now rewrite He, Hw.
  - split; [split; [easy|]|].
    { intros (Hn & He & Hw). destruct Hc as [->|[H|H]]; congruence. }
    split; [reflexivity|].
    split; [intros d []|].
    rewrite Ht.
    destruct Hc as [->|[H|H]]; unfold specFallback.
    + reflexivity.
    + destruct err; destruct (logic.Errors ops); easy.
    + destruct err; destruct (logic.Errors ops);
        destruct (logic.Warnings ops); easy.
Qed.

(** C5.  The handler's output is the optional fallback diagnostic, then one
    Error diagnostic per structured error in their order, then one Warning
    diagnostic per warning in their order; with no failure, no error and no
    warning it is empty. *)
Theorem translate_concatenation ops err :
  translate ops err
  = specFallback ops err
    ++ map errorDiagnostic (logic.Errors ops)
    ++ map warningDiagnostic (logic.Warnings ops)
  /\ map (fun d => (Severity d, Message d))
         (map errorDiagnostic (logic.Errors ops))
     = map (fun e => (Some teal.DiagErr, Error (logic.Unwrap e)))
           (logic.Errors ops)
  /\ map (fun d => (Severity d, Message d))
         (map warningDiagnostic (logic.Warnings ops))
     = map (fun w => (Some teal.DiagWarn, Error w)) (logic.Warnings ops)
  /\ (err = None -> logic.Errors ops = [] -> logic.Warnings ops = [] ->
      translate ops err = []).
Proof.
  split; [apply translate_spec|].
  split; [now rewrite map_map|].
  split; [now rewrite map_map|].
  intros -> He Hw. rewrite translate_spec.
  unfold specTranslate, specFallback. now rewrite He, Hw.
Qed.

(** C8.  One structured error at line 3, column 5 whose wrapped cause reads
    "undefined label", and no warning: the handler's output is exactly one
    diagnostic, at (2,4)-(2,4), of severity Error, with that message. *)
Theorem scenario_undefined_label (cause : error) err :
  Error cause = "undefined label"%string ->
  translate {| logic.Errors := [ {| logic.Line := 3; logic.Column := 5;
                                    logic.Err := cause |} ];
               logic.Warnings := [] |} err
  = [ {| Range := {| Start := {| Line := 2; Character := 4 |};
                     End_ := {| Line := 2; Character := 4 |} |};
         Severity := Some teal.DiagErr;
         Message := "undefined label" |} ].
Proof.
  intros Hc. rewrite translate_spec.
  unfold specTranslate, specFallback, errorDiagnostic, logic.Unwrap; simpl.
  rewrite Hc. destruct err; reflexivity.
Qed.

(** C9.  Every diagnostic of the handler's output has a severity that is
    not nil and is Error or Warning, and a range whose start is its end. *)
Theorem translate_severity_and_zero_width ops err :
  Forall (fun d =>
            (Severity d = Some teal.DiagErr \/ Severity d = Some teal.DiagWarn)
            /\ Start (Range d) = End_ (Range d))
         (translate ops err).
Proof.
  rewrite translate_spec. unfold specTranslate.
  rewrite !Forall_app. repeat split.
  - destruct (specFallback_cases ops err)
      as [(x & _ & _ & _ & ->) | (_ & ->)]; repeat constructor.
  - apply Forall_map, Forall_forall. intros e _. simpl. auto.
  - apply Forall_map, Forall_forall. intros w _. simpl. auto.
Qed.

(** C10, as amended.  With a top-level failure, no structured error and at
    least one warning, the handler's output is one Warning diagnostic per
    warning, carrying the warning's text: no diagnostic is of severity
    Error, the output is what it is without the failure, and a message is
    the failure text only if a warning has that text. *)
Theorem unlocalized_failure_with_warnings ops x :
  logic.Errors ops = [] ->
  logic.Warnings ops <> [] ->
  translate ops (Some x) = map warningDiagnostic (logic.Warnings ops)
  /\ translate ops (Some x) = translate ops None
  /\ Forall (fun d => Severity d = Some teal.DiagWarn
                      /\ Severity d <> Some teal.DiagErr)
            (translate ops (Some x))
  /\ (forall d, In d (translate ops (Some x)) ->
      Message d = Error x ->
      exists w, In w (logic.Warnings ops) /\ Error w = Error x)
  /\ ((forall w, In w (logic.Warnings ops) -> Error w <> Error x) ->
      forall d, In d (translate ops (Some x)) -> Message d <> Error x).
Proof.
  intros He Hw.
  assert (Ht : translate ops (Some x)
               = map warningDiagnostic (logic.Warnings ops)).
  { rewrite translate_spec. unfold specTranslate, specFallback.
    rewrite He. destruct (logic.Warnings ops); [easy|reflexivity]. }
  assert (Hin : forall d, In d (translate ops (Some x)) ->
                exists w, In w (logic.Warnings ops) /\ Message d = Error w).
  { intros d Hd. rewrite Ht in Hd. apply in_map_iff in Hd.
    destruct Hd as (w & <- & Hd). exists w. auto. }
  split; [exact Ht|].
  split.
  { rewrite Ht, translate_spec. unfold specTranslate, specFallback.
    now rewrite He. }
  split.
  { rewrite Ht. apply Forall_map, Forall_forall. intros w _. simpl.
    split; [reflexivity|discriminate]. }
  split.
  - intros d Hd Hm. destruct (Hin d Hd) as (w & Hwin & Hmw).
    exists w. split; [exact Hwin|congruence].
  - intros Hall d Hd Hm. destruct (Hin d Hd) as (w & Hwin & Hmw).
    apply (Hall w Hwin). congruence.
Qed.

End Translator.

(** ** The process *)

Section ProcessFacts.

Context {Conn File DbgConfig SimulateResponse Lsp Dbg : Type}.
Variable W : World Conn File DbgConfig SimulateResponse Lsp Dbg.

Implicit Types t : trace Conn File DbgConfig SimulateResponse.

Lemma nonEmpty_true s : nonEmpty s = true <-> s <> ""%string.
Proof.
  unfold nonEmpty. destruct (String.eqb_spec s ""); simpl; split; congruence.
Qed.

Lemma nonEmpty_false s : nonEmpty s = false <-> s = ""%string.
Proof.
  unfold nonEmpty. destruct (String.eqb_spec s ""); simpl; split; congruence.
Qed.

Lemma dials_app t t2 : dials (t ++ t2) = dials t ++ dials t2.
Proof.
  induction t as [|ev t IH]; simpl; [reflexivity|].
  destruct ev; simpl; now rewrite IH.
Qed.

Lemma lspNews_app t t2 :
  lspNews (t ++ t2) = lspNews t ++ lspNews t2.
Proof.
  induction t as [|ev t IH]; simpl; [reflexivity|].
  destruct ev; simpl; now rewrite IH.
Qed.

Lemma dbgNews_app t t2 :
  dbgNews (t ++ t2) = dbgNews t ++ dbgNews t2.
Proof.
  induction t as [|ev t IH]; simpl; [reflexivity|].
  destruct ev; simpl; now rewrite IH.
Qed.

(** The resolver's answer, when it gives one: the options of the inputs
    that are present, in the order of the ranks. *)
Lemma runDbg_options_ranks a t opts t' :
  runDbg_options W a t = (inl opts, t') ->
  map rank opts = filter (present a) [0; 1; 2; 3]%nat.
Proof.
  unfold runDbg_options, bind, call, ret, return_. intros H.
  simpl. branches H; inversion H; subst; reflexivity.
Qed.

Lemma touched_app t t2 : touched (t ++ t2) = touched t ++ touched t2.
Proof.
  induction t as [|ev t IH]; simpl; [reflexivity|].
  destruct ev; simpl; now rewrite IH.
Qed.

(** The files the resolver touches, whether it succeeds or not, are a
    prefix of debug sink, configuration, replay, as far as supplied. *)
Lemma runDbg_options_touched a t opts t' :
  runDbg_options W a t = (inl opts, t') ->
  touched t' = touched t ++ filter nonEmpty [Debug a; Config a; Replay a].
Proof.
  unfold runDbg_options, bind, call, ret, return_. intros H.
  simpl. branches H; inversion H; subst;
    rewrite ?touched_app; simpl; rewrite ?app_nil_r, <- ?app_assoc;
    reflexivity.
Qed.

(** [dbg -replay r.json -config c.json] when both files are well-formed:
    what [dbg.New] is handed. *)
Lemma main_replay_and_config prog cbs cfg rbs rpl :
  (forall t, os_ReadFile W t "c.json" = inl cbs) ->
  (forall t, json_Unmarshal_DbgConfig W t cbs = inl cfg) ->
  (forall t, os_ReadFile W t "r.json" = inl rbs) ->
  (forall t, json_Unmarshal_SimulateResponse W t rbs = inl rpl) ->
  dbgNews (snd (main W prog ["dbg"; "-replay"; "r.json";
                             "-config"; "c.json"]%string []))
  = [ [ dbg_WithConfig cfg;
        dbg_WithAlgod "https://testnet-api.algonode.cloud" "";
        dbg_WithReplay rpl ] ].
Proof.
  intros Hc Hcp Hr Hrp.
  unfold main; simpl.
  unfold finish, exec, runDbg, runDbg_options, bind, call, ret, return_;
    simpl.
  rewrite Hc, Hcp, Hr, Hrp; simpl.
  destruct (dbg_New W _ _ _ _) as [l|e]; simpl.
  - destruct (dbg_Run W _ l) as [code [e|]]; reflexivity.
  - reflexivity.
Qed.

(** C6.  The resolver appends the options of its inputs in the order debug
    sink, static configuration, live endpoint, replay, whichever of them
    are present, and touches their files in that order; for
    [dbg -replay r.json -config c.json] with both files well-formed the
    configuration option stands before the replay option in the list
    handed to [dbg.New]. *)
Theorem resolver_applies_inputs_in_fixed_order :
  (forall a t opts t',
      runDbg_options W a t = (inl opts, t') ->
      map rank opts = filter (present a) [0; 1; 2; 3]%nat
      /\ touched t'
         = touched t ++ filter nonEmpty [Debug a; Config a; Replay a])
  /\ (forall prog cbs cfg rbs rpl,
      (forall t, os_ReadFile W t "c.json" = inl cbs) ->
      (forall t, json_Unmarshal_DbgConfig W t cbs = inl cfg) ->
      (forall t, os_ReadFile W t "r.json" = inl rbs) ->
      (forall t, json_Unmarshal_SimulateResponse W t rbs = inl rpl) ->
      exists before between after,
        dbgNews (snd (main W prog ["dbg"; "-replay"; "r.json";
                                   "-config"; "c.json"]%string []))
        = [ before ++ dbg_WithConfig cfg :: between
                   ++ dbg_WithReplay rpl :: after ]).
Proof.
  split.
  - intros a t opts t' H. split.
    + eapply runDbg_options_ranks; eassumption.
    + eapply runDbg_options_touched; eassumption.
  - intros prog cbs cfg rbs rpl Hc Hcp Hr Hrp.
    exists [], [dbg_WithAlgod "https://testnet-api.algonode.cloud" ""], [].
    now apply (main_replay_and_config prog cbs cfg rbs rpl).
Qed.

(** The resolver's answer has a replay option exactly when a replay path
    was supplied, and a live-endpoint option exactly when the address it
    was given is not empty. *)
Lemma runDbg_options_sources a t opts t' :
  runDbg_options W a t = (inl opts, t') ->
  existsb isReplay opts = nonEmpty (Replay a)
  /\ existsb isAlgod opts = nonEmpty (Algod a).
Proof.
  unfold runDbg_options, bind, call, ret, return_. intros H.
  simpl. branches H; inversion H; subst; split; reflexivity.
Qed.

(** [dbg -replay r.json -algod ""] when the replay file is well-formed:
    what [dbg.New] is handed. *)
Lemma main_replay_and_empty_algod prog rbs rpl :
  (forall t, os_ReadFile W t "r.json" = inl rbs) ->
  (forall t, json_Unmarshal_SimulateResponse W t rbs = inl rpl) ->
  dbgNews (snd (main W prog ["dbg"; "-replay"; "r.json"; "-algod"; ""]%string
                     []))
  = [ [ dbg_WithReplay rpl ] ].
Proof.
  intros Hr Hrp.
  unfold main; simpl.
  unfold finish, exec, runDbg, runDbg_options, bind, call, ret, return_;
    simpl.
  rewrite Hr, Hrp; simpl.
  destruct (dbg_New W _ _ _ _) as [l|e]; simpl.
  - destruct (dbg_Run W _ l) as [code [e|]]; reflexivity.
  - reflexivity.
Qed.

(** C2, as amended.  When the resolver is given a replay path and an empty
    live-endpoint address, its option list has a replay option and no
    live-endpoint option; given an empty replay path and an address that is
    not empty, it has a live-endpoint option and no replay option.  At the
    command line the address is empty when [-algod] is given the empty
    string: then [dbg -replay r.json] registers the replay alone. *)
Theorem resolver_source_options :
  (forall a t opts t',
      runDbg_options W a t = (inl opts, t') ->
      (Replay a <> ""%string -> Algod a = ""%string ->
       existsb isReplay opts = true /\ existsb isAlgod opts = false)
      /\ (Replay a = ""%string -> Algod a <> ""%string ->
          existsb isAlgod opts = true /\ existsb isReplay opts = false))
  /\ (forall prog rbs rpl,
      (forall t, os_ReadFile W t "r.json" = inl rbs) ->
      (forall t, json_Unmarshal_SimulateResponse W t rbs = inl rpl) ->
      dbgNews (snd (main W prog
                         ["dbg"; "-replay"; "r.json"; "-algod"; ""]%string
                         []))
      = [ [ dbg_WithReplay rpl ] ]).
Proof.
  split.
  - intros a t opts t' H.
    destruct (runDbg_options_sources _ _ _ _ H) as [Hr Ha].
    rewrite Hr, Ha. split; intros H1 H2.
    + split; [now apply nonEmpty_true|now apply nonEmpty_false].
    + split; [now apply nonEmpty_true|now apply nonEmpty_false].
  - intros prog rbs rpl Hr Hrp.
    now apply (main_replay_and_empty_algod prog rbs rpl).
Qed.

(** C7.  With a network and an address that are both not empty, [runLsp]
    dials once, that network and address, and answers a failed dial with
    code -1; a successful dial makes the connection both streams of the
    session.  With either empty it does not dial, and standard input and
    standard output are the streams. *)
Theorem transport_selection a t :
  (Addr a <> ""%string -> Net a <> ""%string ->
   dials (snd (exec (runLsp W a) t)) = dials t ++ [(Net a, Addr a)]
   /\ (forall err,
       net_Dial W t (Net a) (Addr a) = inr err ->
       exec (runLsp W a) t
       = ((-1, Some (errors_Wrap err "failed to connect to the client")),
          t ++ [EvDial (Net a) (Addr a)]))
   /\ (forall c,
       net_Dial W t (Net a) (Addr a) = inl c ->
       runLsp_transport W a t
       = (inl (conn c, conn c), t ++ [EvDial (Net a) (Addr a)])))
  /\ (Addr a = ""%string \/ Net a = ""%string ->
      dials (snd (exec (runLsp W a) t)) = dials t
      /\ runLsp_transport W a t = (inl (os_Stdin, os_Stdout), t)
      /\ exists news,
          lspNews (snd (exec (runLsp W a) t)) = lspNews t ++ news
          /\ Forall (fun n => fst n = (os_Stdin, os_Stdout)) news).
Proof.
  split.
  - intros Ha Hn.
    apply nonEmpty_true in Ha. apply nonEmpty_true in Hn.
    unfold runLsp, runLsp_transport, runLsp_options, exec,
      bind, call, ret, return_.
    rewrite Ha, Hn; simpl.
    destruct (net_Dial W t (Net a) (Addr a)) as [c|err] eqn:Hd; simpl.
    + split; [|split; [discriminate|intros c' [= <-]; reflexivity]].
      outcomes;
        rewrite ?dials_app; simpl; rewrite ?app_nil_r, <- ?app_assoc;
        reflexivity.
    + split; [|split; [intros e [= <-]; reflexivity|discriminate]].
      rewrite dials_app. reflexivity.
  - intros Hempty.
    assert (Hg : (nonEmpty (Addr a) && nonEmpty (Net a))%bool = false).
    { destruct Hempty as [H|H]; apply nonEmpty_false in H; rewrite H;
        [reflexivity|apply andb_false_r]. }
    unfold runLsp, runLsp_transport, runLsp_options, exec,
      bind, call, ret, return_.
    rewrite Hg; simpl.
    split; [|split; [reflexivity|]].
    + outcomes; rewrite ?dials_app; simpl; rewrite ?app_nil_r; reflexivity.
    + outcomes;
        rewrite ?lspNews_app; simpl; rewrite <- ?app_assoc; simpl;
        eexists; (split; [reflexivity|]); repeat constructor.
Qed.

(** A run that returns an error ends in a panic, whatever its code. *)
Lemma finish_panics (m : M Conn File DbgConfig SimulateResponse
                          (Exit)) t code err t' :
  exec m t = ((code, Some err), t') -> finish m t = (panic err, t').
Proof.
  unfold finish. now intros ->.
Qed.

(** C1, the code at its failing inputs.  In debugger mode a configuration
    file that cannot be read and a session that cannot be constructed are
    both answered with code -3. *)
Theorem runDbg_phases_share_code :
  (forall a t err,
      Debug a = ""%string -> Config a <> ""%string ->
      os_ReadFile W t (Config a) = inr err ->
      fst (exec (runDbg W a) t)
      = (-3, Some (errors_Wrap err "failed to read config file")))
  /\ (forall a t opts t' err,
      runDbg_options W a t = (inl opts, t') ->
      dbg_New W t' os_Stdin os_Stdout opts = inr err ->
      fst (exec (runDbg W a) t)
      = (-3, Some (errors_Wrap err "failed to create dbg"))).
Proof.
  split.
  - intros a t err Hd Hc Hr.
    apply nonEmpty_true in Hc.
    unfold runDbg, runDbg_options, exec, bind, call, ret, return_.
    rewrite Hd, Hc; simpl. rewrite Hr. reflexivity.
  - intros a t opts t' err Ho Hn.
    unfold runDbg, exec, bind, call, ret, return_.
    rewrite Ho; simpl. rewrite Hn. reflexivity.
Qed.

End ProcessFacts.

(** * The properties at sample inputs *)

Lemma errorDiagnostic_position_witness :
  In Sample.undefinedLabel (logic.Errors Sample.oneError)
  /\ GoInt.in_range 3 /\ GoInt.in_range 5
  /\ In (errorDiagnostic Sample.undefinedLabel)
        (translate Sample.oneError None)
  /\ Start (Range (errorDiagnostic Sample.undefinedLabel))
     = {| Line := 3 - 1; Character := 5 - 1 |}.
Proof.
  assert (Hin : In Sample.undefinedLabel (logic.Errors Sample.oneError))
    by (left; reflexivity).
  assert (H3 : GoInt.in_range 3) by (vm_compute; split; discriminate).
  assert (H5 : GoInt.in_range 5) by (vm_compute; split; discriminate).
  destruct (errorDiagnostic_position Sample.oneError None
              Sample.undefinedLabel Hin H3 H5) as (Hd & Hpos & _).
  split; [exact Hin|]. split; [exact H3|]. split; [exact H5|].
  split; [exact Hd|].
  apply Hpos; reflexivity.
Defined.

Lemma fallback_exactly_when_unlocalized_witness :
  appendFallback Sample.bare (Some Sample.boom) [] <> []
  /\ translate Sample.bare (Some Sample.boom)
     = appendFallback Sample.bare (Some Sample.boom) [] ++ [] ++ [].
Proof.
  destruct (fallback_exactly_when_unlocalized Sample.bare (Some Sample.boom))
    as (Hiff & _ & _ & Ht).
  split; [|exact Ht].
  apply Hiff. repeat split; discriminate.
Defined.

Lemma translate_concatenation_witness : translate Sample.bare None = [].
Proof.
  destruct (translate_concatenation Sample.bare None) as (_ & _ & _ & H).
  apply H; reflexivity.
Defined.

Lemma scenario_undefined_label_witness :
  Error (errors_New "undefined label") = "undefined label"%string
  /\ translate Sample.oneError (Some (errors_New "1 error"))
     = [ {| Range := {| Start := {| Line := 2; Character := 4 |};
                        End_ := {| Line := 2; Character := 4 |} |};
            Severity := Some teal.DiagErr;
            Message := "undefined label" |} ].
Proof.
  split; [reflexivity|].
  apply (scenario_undefined_label (errors_New "undefined label")).
  reflexivity.
Defined.

Lemma unlocalized_failure_with_warnings_witness :
  logic.Errors Sample.warned = []
  /\ logic.Warnings Sample.warned <> []
  /\ translate Sample.warned (Some (errors_New "1 error"))
     = map warningDiagnostic (logic.Warnings Sample.warned).
Proof.
  assert (He : logic.Errors Sample.warned = []) by reflexivity.
  assert (Hw : logic.Warnings Sample.warned <> []) by discriminate.
  destruct (unlocalized_failure_with_warnings Sample.warned
              (errors_New "1 error") He Hw) as (Ht & _).
  split; [exact He|]. split; [exact Hw|exact Ht].
Defined.

(** C10 as stated fails: with a warning whose text is the text of the
    failure, a diagnostic carries the failure text. *)
Lemma failure_text_in_warning_message :
  logic.Errors Sample.warned = []
  /\ logic.Warnings Sample.warned <> []
  /\ exists d, In d (translate Sample.warned (Some Sample.boom))
               /\ Message d = Error Sample.boom.
Proof.
  split; [reflexivity|]. split; [discriminate|].
  exists (warningDiagnostic Sample.boom). split; [left|]; reflexivity.
Qed.

Lemma resolver_applies_inputs_in_fixed_order_witness :
  (exists opts t',
      runDbg_options (Sample.world Sample.files false true)
                     Sample.allFour [] = (inl opts, t')
      /\ map rank opts = [0; 1; 2; 3]%nat
      /\ touched t' = ["d.log"; "c.json"; "r.json"]%string)
  /\ (exists before between after,
        dbgNews (snd (main (Sample.world Sample.files false true) "tealsp"
                           ["dbg"; "-replay"; "r.json";
                            "-config"; "c.json"]%string []))
        = [ before ++ dbg_WithConfig Sample.cfgBytes :: between
                   ++ dbg_WithReplay Sample.rplBytes :: after ]).
Proof.
  destruct (resolver_applies_inputs_in_fixed_order
              (Sample.world Sample.files false true)) as [Horder Hscenario].
  split.
  - eexists. eexists. split; [reflexivity|].
    apply (Horder Sample.allFour []). reflexivity.
  - apply (Hscenario "tealsp"%string Sample.cfgBytes Sample.cfgBytes
                     Sample.rplBytes Sample.rplBytes);
      intros t; reflexivity.
Defined.

Lemma resolver_source_options_witness :
  (exists opts t',
      runDbg_options (Sample.world Sample.files false true)
                     Sample.replayOnly [] = (inl opts, t')
      /\ Replay Sample.replayOnly <> ""%string
      /\ Algod Sample.replayOnly = ""%string
      /\ existsb isReplay opts = true
      /\ existsb isAlgod opts = false)
  /\ (exists opts t',
        runDbg_options (Sample.world Sample.files false true)
                       Sample.liveOnly [] = (inl opts, t')
        /\ Replay Sample.liveOnly = ""%string
        /\ Algod Sample.liveOnly <> ""%string
        /\ existsb isAlgod opts = true
        /\ existsb isReplay opts = false)
  /\ dbgNews (snd (main (Sample.world Sample.files false true) "tealsp"
                        ["dbg"; "-replay"; "r.json"; "-algod"; ""]%string
                        []))
     = [ [ dbg_WithReplay Sample.rplBytes ] ].
Proof.
  destruct (resolver_source_options (Sample.world Sample.files false true))
    as [Hsrc Hcli].
  assert (Hr : Replay Sample.replayOnly <> ""%string) by discriminate.
  assert (Ha : Algod Sample.replayOnly = ""%string) by reflexivity.
  assert (Hr' : Replay Sample.liveOnly = ""%string) by reflexivity.
  assert (Ha' : Algod Sample.liveOnly <> ""%string) by discriminate.
  split; [|split].
  - eexists. eexists. split; [reflexivity|].
    split; [exact Hr|]. split; [exact Ha|].
    apply (Hsrc Sample.replayOnly [] _ _ eq_refl); assumption.
  - eexists. eexists. split; [reflexivity|].
    split; [exact Hr'|]. split; [exact Ha'|].
    apply (Hsrc Sample.liveOnly [] _ _ eq_refl); assumption.
  - apply (Hcli "tealsp"%string Sample.rplBytes Sample.rplBytes);
      intros t; reflexivity.
Defined.

(** C2 as stated fails: [dbg -replay r.json], with no [-algod] given, hands
    [dbg.New] a live-endpoint option for the default endpoint beside the
    replay option. *)
Lemma replay_alone_registers_default_endpoint :
  exists opts,
    dbgNews (snd (main (Sample.world Sample.files false true) "tealsp"
                       ["dbg"; "-replay"; "r.json"]%string []))
    = [opts]
    /\ opts = [ dbg_WithAlgod "https://testnet-api.algonode.cloud" "";
                dbg_WithReplay Sample.rplBytes ]
    /\ existsb isReplay opts = true
    /\ existsb isAlgod opts = true.
Proof.
  eexists. split; [reflexivity|]. repeat split.
Qed.

Lemma transport_selection_witness :
  (Addr Sample.dialed <> ""%string /\ Net Sample.dialed <> ""%string
   /\ dials (snd (exec (runLsp (Sample.world [] false true) Sample.dialed)
                       []))
      = [("tcp", "127.0.0.1:9000")]%string
   /\ fst (fst (exec (runLsp (Sample.world [] false true) Sample.dialed)
                     [])) = -1)
  /\ (Addr lspDefaults = ""%string
      /\ dials (snd (exec (runLsp (Sample.world [] false true) lspDefaults)
                          [])) = []).
Proof.
  assert (Ha : Addr Sample.dialed <> ""%string) by discriminate.
  assert (Hn : Net Sample.dialed <> ""%string) by discriminate.
  destruct (transport_selection (Sample.world [] false true)
              Sample.dialed []) as [Hdial _].
  destruct (Hdial Ha Hn) as (Hd & Hfail & _).
  destruct (transport_selection (Sample.world [] false true)
              lspDefaults []) as [_ Hstdio].
  destruct (Hstdio (or_introl eq_refl)) as (Hs & _).
  split.
  - split; [exact Ha|]. split; [exact Hn|]. split; [exact Hd|].
    rewrite (Hfail (errors_New "connection refused") eq_refl). reflexivity.
  - split; [reflexivity|exact Hs].
Defined.

Lemma runDbg_phases_share_code_witness :
  fst (exec (runDbg (Sample.world [] false true) Sample.configOnly) [])
  = (-3, Some (errors_Wrap (errors_New "no such file or directory")
                           "failed to read config file"))
  /\ fst (exec (runDbg (Sample.world [] false false) Sample.noInputs) [])
     = (-3, Some (errors_Wrap (errors_New "rejected")
                              "failed to create dbg")).
Proof.
  split.
  - destruct (runDbg_phases_share_code (Sample.world [] false true))
      as [Hread _].
    apply (Hread Sample.configOnly []); [reflexivity|discriminate|reflexivity].
  - destruct (runDbg_phases_share_code (Sample.world [] false false))
      as [_ Hsession].
    apply (Hsession Sample.noInputs [] [] []); reflexivity.
Defined.

(** * Further properties of the translator *)

Section TranslatorEdges.

Implicit Types (ops : logic.OpStream) (err : option error).
Implicit Types (e : logic.sourceError).

(** The coordinate step of the error loop, on a value in range. *)
Lemma coordinate_step z :
  GoInt.in_range z ->
  (if z =? 0 then z else GoInt.dec z)
  = if z =? 0 then 0
    else if z =? GoInt.min_int then GoInt.max_int else z - 1.
Proof.
  intros Hz. destruct (Z.eqb_spec z 0) as [->|Hn]; [reflexivity|].
  destruct (Z.eqb_spec z GoInt.min_int) as [->|Hm]; [reflexivity|].
  unfold GoInt.dec. apply wrap_in_range.
  unfold GoInt.in_range, GoInt.min_int, GoInt.max_int in *. lia.
Qed.

(** X1.  The handler reports nothing exactly when the assembler reported
    nothing: no failure, no structured error, no warning. *)
Theorem translate_empty_iff ops err :
  translate ops err = []
  <-> (err = None /\ logic.Errors ops = [] /\ logic.Warnings ops = []).
Proof.
  rewrite translate_spec. unfold specTranslate, specFallback.
  destruct err as [x|];
    destruct (logic.Errors ops) as [|e es];
    destruct (logic.Warnings ops) as [|w ws]; simpl;
    split; try discriminate; try (intros (H1 & H2 & H3); discriminate);
    auto.
Qed.

(** X2.  When the result carries a structured error or a warning, the
    top-level failure has no part in the output: it is the same for every
    failure and for none. *)
Theorem translate_failure_only_in_fallback ops err :
  logic.Errors ops <> [] \/ logic.Warnings ops <> [] ->
  translate ops err = translate ops None.
Proof.
  intros H. rewrite !translate_spec. unfold specTranslate, specFallback.
  destruct err as [x|]; [|reflexivity].
  destruct (logic.Errors ops) as [|e es]; [|reflexivity].
  destruct (logic.Warnings ops) as [|w ws]; [|reflexivity].
  destruct H as [H|H]; congruence.
Qed.

(** X3.  Two structured errors whose lines are not negative are translated
    to the same line exactly when their lines are equal or both at most 1:
    line 0 and line 1 cannot be told apart afterwards.  The same holds of
    columns and characters. *)
Theorem translated_coordinates_collide e1 e2 :
  GoInt.in_range (logic.Line e1) -> GoInt.in_range (logic.Line e2) ->
  GoInt.in_range (logic.Column e1) -> GoInt.in_range (logic.Column e2) ->
  0 <= logic.Line e1 -> 0 <= logic.Line e2 ->
  0 <= logic.Column e1 -> 0 <= logic.Column e2 ->
  (Line (Start (Range (errorDiagnostic e1)))
   = Line (Start (Range (errorDiagnostic e2)))
   <-> (logic.Line e1 = logic.Line e2
        \/ (logic.Line e1 <= 1 /\ logic.Line e2 <= 1)))
  /\ (Character (Start (Range (errorDiagnostic e1)))
      = Character (Start (Range (errorDiagnostic e2)))
      <-> (logic.Column e1 = logic.Column e2
           \/ (logic.Column e1 <= 1 /\ logic.Column e2 <= 1))).
Proof.
  intros Rl1 Rl2 Rc1 Rc2 Hl1 Hl2 Hc1 Hc2.
  unfold errorDiagnostic; simpl.
  rewrite !coordinate_step by assumption.
  unfold GoInt.min_int.
  split.
  - destruct (Z.eqb_spec (logic.Line e1) 0), (Z.eqb_spec (logic.Line e2) 0),
      (Z.eqb_spec (logic.Line e1) (- 2 ^ 63)),
      (Z.eqb_spec (logic.Line e2) (- 2 ^ 63)); lia.
  - destruct (Z.eqb_spec (logic.Column e1) 0),
      (Z.eqb_spec (logic.Column e2) 0),
      (Z.eqb_spec (logic.Column e1) (- 2 ^ 63)),
      (Z.eqb_spec (logic.Column e2) (- 2 ^ 63)); lia.
Qed.

(** X4.  A negative line is not clamped: it is decremented like any other
    line that is not 0, so the translated line is negative too, except at
    the least [int], where the decrement wraps around to the greatest.  The
    same holds of a negative column. *)
Theorem negative_coordinates_not_clamped e :
  GoInt.in_range (logic.Line e) -> GoInt.in_range (logic.Column e) ->
  (GoInt.min_int < logic.Line e < 0 ->
   Line (Start (Range (errorDiagnostic e))) = logic.Line e - 1)
  /\ (logic.Line e = GoInt.min_int ->
      Line (Start (Range (errorDiagnostic e))) = GoInt.max_int)
  /\ (GoInt.min_int < logic.Column e < 0 ->
      Character (Start (Range (errorDiagnostic e))) = logic.Column e - 1)
  /\ (logic.Column e = GoInt.min_int ->
      Character (Start (Range (errorDiagnostic e))) = GoInt.max_int).
Proof.
  intros Rl Rc. unfold errorDiagnostic; simpl.
  rewrite !coordinate_step by assumption.
  repeat split; intros H.
  - destruct (Z.eqb_spec (logic.Line e) 0); [lia|].
    destruct (Z.eqb_spec (logic.Line e) GoInt.min_int); lia.
  - rewrite H. reflexivity.
  - destruct (Z.eqb_spec (logic.Column e) 0); [lia|].
    destruct (Z.eqb_spec (logic.Column e) GoInt.min_int); lia.
  - rewrite H. reflexivity.
Qed.

End TranslatorEdges.

Lemma translate_failure_only_in_fallback_witness :
  (logic.Errors Sample.warned <> [] \/ logic.Warnings Sample.warned <> [])
  /\ translate Sample.warned (Some Sample.boom)
     = translate Sample.warned None.
Proof.
  assert (H : logic.Errors Sample.warned <> []
              \/ logic.Warnings Sample.warned <> [])
    by (right; discriminate).
  split; [exact H|].
  exact (translate_failure_only_in_fallback Sample.warned
           (Some Sample.boom) H).
Defined.

Lemma translated_coordinates_collide_witness :
  Line (Start (Range (errorDiagnostic (More.atLine 0 7))))
  = Line (Start (Range (errorDiagnostic (More.atLine 1 8))))
  /\ Character (Start (Range (errorDiagnostic (More.atLine 0 7))))
     <> Character (Start (Range (errorDiagnostic (More.atLine 1 8)))).
Proof.
  assert (R : forall z, -10 <= z <= 10 -> GoInt.in_range z).
  { intros z Hz. unfold GoInt.in_range, GoInt.min_int, GoInt.max_int. lia. }
  destruct (translated_coordinates_collide (More.atLine 0 7)
              (More.atLine 1 8))
    as [Hl Hc]; simpl; try (apply R; lia); try lia.
  split.
  - apply Hl. right. simpl. lia.
  - intros H. apply Hc in H. simpl in H. lia.
Defined.

Lemma negative_coordinates_not_clamped_witness :
  GoInt.min_int < -2 < 0
  /\ Line (Start (Range (errorDiagnostic (More.atLine (-2) 0)))) = -2 - 1
  /\ Line (Start (Range (errorDiagnostic
                           (More.atLine GoInt.min_int 0))))
     = GoInt.max_int.
Proof.
  assert (Hm : GoInt.min_int < -2 < 0) by (unfold GoInt.min_int; lia).
  assert (R2 : GoInt.in_range (-2))
    by (unfold GoInt.in_range, GoInt.min_int, GoInt.max_int; lia).
  assert (R0 : GoInt.in_range 0)
    by (unfold GoInt.in_range, GoInt.min_int, GoInt.max_int; lia).
  assert (Rm : GoInt.in_range GoInt.min_int)
    by (unfold GoInt.in_range, GoInt.min_int, GoInt.max_int; lia).
  split; [exact Hm|]. split.
  - destruct (negative_coordinates_not_clamped (More.atLine (-2) 0) R2 R0)
      as (H & _). apply H. exact Hm.
  - destruct (negative_coordinates_not_clamped
                (More.atLine GoInt.min_int 0) Rm R0) as (_ & H & _).
    apply H. reflexivity.
Defined.

(** * Further properties of the process *)

Section ProcessOutcomes.

Context {Conn File DbgConfig SimulateResponse Lsp Dbg : Type}.
Variable W : World Conn File DbgConfig SimulateResponse Lsp Dbg.

Implicit Types t : trace Conn File DbgConfig SimulateResponse.

Lemma runs_app t t2 : runs (t ++ t2) = (runs t + runs t2)%nat.
Proof.
  induction t as [|ev t IH]; simpl; [reflexivity|].
  destruct ev; simpl; now rewrite IH.
Qed.

Lemma dbgNewStreams_app t t2 :
  dbgNewStreams (t ++ t2) = dbgNewStreams t ++ dbgNewStreams t2.
Proof.
  induction t as [|ev t IH]; simpl; [reflexivity|].
  destruct ev; simpl; now rewrite IH.
Qed.

(** What the projections make of a trace that has grown. *)
Ltac observe :=
  rewrite ?lspNews_app, ?dbgNews_app, ?dials_app, ?touched_app, ?runs_app,
    ?dbgNewStreams_app;
  simpl;
  rewrite ?app_nil_r, <- ?app_assoc, ?Nat.add_0_r, ?Nat.add_1_r; simpl.

(** One case split of a run known by its result and trace. *)
Ltac split_run H :=
  repeat (match type of H with
          | context [if ?b then _ else _] => destruct b eqn:?
          | context [match ?x with inl _ => _ | inr _ => _ end] =>
              destruct x eqn:?
          | context [let (_, _) := ?x in _] => destruct x eqn:?
          end; simpl in H).



(** X6.  The option list [runLsp] builds always ends with the diagnostics
    handler, the one that translates what [logic.AssembleString] returns.
    Before it stands the debug sink, the file [os.Create] returned for the
    path, when a path was supplied, and nothing otherwise; without a path
    no call is made. *)
Theorem runLsp_options_handler_last a t opts t' :
  runLsp_options W a t = (inl opts, t') ->
  exists sink,
    opts = sink ++ [lsp_WithPrepareDiagnosticsHandler
                      (prepareDiagnostics (logic_AssembleString W))]
    /\ ((lsp_Debug a = ""%string /\ sink = [] /\ t' = t)
        \/ (lsp_Debug a <> ""%string
            /\ exists f, os_Create W t (lsp_Debug a) = inl f
                         /\ sink = [lsp_WithDebug f]
                         /\ t' = t ++ [EvCreate (lsp_Debug a)])).
Proof.
  unfold runLsp_options, bind, call, ret, return_.
  intros H. split_run H; inversion H; subst; clear H.
  - exists [lsp_WithDebug f]. split; [reflexivity|]. right.
    split; [now apply nonEmpty_true|]. exists f. repeat split.
  - exists []. split; [reflexivity|]. left.
    split; [now apply nonEmpty_false|]. split; reflexivity.
Qed.


(** X8.  [runDbg] never dials and never constructs an editor-protocol
    session; it calls [dbg.New] at most once, and then on standard input
    and standard output. *)
Theorem runDbg_stdio_only a t :
  dials (snd (exec (runDbg W a) t)) = dials t
  /\ lspNews (snd (exec (runDbg W a) t)) = lspNews t
  /\ exists k, (k <= 1)%nat
               /\ dbgNewStreams (snd (exec (runDbg W a) t))
                  = dbgNewStreams t ++ repeat (os_Stdin, os_Stdout) k.
Proof.
  unfold runDbg, runDbg_options, exec, bind, call, ret, return_.
  outcomes; observe; (split; [reflexivity|]); (split; [reflexivity|]);
    first [ exists 0%nat; split; [lia|]; simpl;
            rewrite ?app_nil_r; reflexivity
          | exists 1%nat; split; [lia|]; reflexivity ].
Qed.

(** X9.  The option list of the resolver has a live-endpoint option for an
    address and a token exactly when the address given is not empty and
    they are the address and the token given: the token goes through as it
    is, empty or not, and a token without an address is dropped. *)
Theorem runDbg_options_algod a t opts t' :
  runDbg_options W a t = (inl opts, t') ->
  forall algod token,
    In (dbg_WithAlgod algod token) opts
    <-> (Algod a <> ""%string /\ algod = Algod a /\ token = AlgodToken a).
Proof.
  unfold runDbg_options, bind, call, ret, return_.
  intros H algod token. simpl.
  split_run H; inversion H; subst; clear H.
  all: repeat match goal with
              | E : nonEmpty _ = true |- _ => apply nonEmpty_true in E
              | E : nonEmpty _ = false |- _ => apply nonEmpty_false in E
              end.
  all: simpl; split;
    [ intros Hin;
      repeat (destruct Hin as [Hin|Hin]; try discriminate Hin);
      try contradiction;
      injection Hin as <- <-; auto
    | intros (Hn & -> & ->); try contradiction; auto 6 ].
Qed.

(** X10.  Every option the resolver returns carries what the world gave
    for the path of its input: the debug sink is the file [os.Create]
    returned for the debug path, the configuration is what decoding the
    bytes read from the configuration path gave, and the replay is what
    decoding the bytes read from the replay path gave. *)
Theorem runDbg_options_payloads a t opts t' :
  runDbg_options W a t = (inl opts, t') ->
  (forall f, In (dbg_WithDebug f) opts ->
             os_Create W t (Debug a) = inl f)
  /\ (forall cfg, In (dbg_WithConfig cfg) opts ->
                  exists t1 bs,
                    os_ReadFile W t1 (Config a) = inl bs
                    /\ json_Unmarshal_DbgConfig
                         W (t1 ++ [EvReadFile (Config a)]) bs = inl cfg)
  /\ (forall rpl, In (dbg_WithReplay rpl) opts ->
                  exists t1 bs,
                    os_ReadFile W t1 (Replay a) = inl bs
                    /\ json_Unmarshal_SimulateResponse
                         W (t1 ++ [EvReadFile (Replay a)]) bs = inl rpl).
Proof.
  unfold runDbg_options, bind, call, ret, return_.
  intros H. simpl. split_run H; inversion H; subst; clear H.
  all: simpl; repeat split; intros x Hin;
    repeat (destruct Hin as [Hin|Hin]; try discriminate Hin);
    try contradiction;
    injection Hin as <-;
    first [ reflexivity | eauto ].
Qed.

(** X15.  [runDbg] is the resolver followed by the session: a failure of
    the resolver is returned as it is, with no session constructed;
    otherwise [dbg.New] is called once, on the very list the resolver
    returned, and either fails, with code -3 and the session not run, or
    gives the session whose [Run] answer is returned unchanged. *)
Theorem runDbg_outcomes a t res t' :
  exec (runDbg W a) t = (res, t') ->
  (runDbg_options W a t = (inr res, t')
   /\ dbgNews t' = dbgNews t /\ runs t' = runs t)
  \/ (exists opts t1 err,
        runDbg_options W a t = (inl opts, t1)
        /\ dbg_New W t1 os_Stdin os_Stdout opts = inr err
        /\ res = (-3, Some (errors_Wrap err "failed to create dbg"))
        /\ dbgNews t' = dbgNews t1 ++ [opts] /\ runs t' = runs t1)
  \/ (exists opts t1 l,
        runDbg_options W a t = (inl opts, t1)
        /\ dbg_New W t1 os_Stdin os_Stdout opts = inl l
        /\ t' = (t1 ++ [EvDbgNew os_Stdin os_Stdout opts]) ++ [EvDbgRun]
        /\ res = dbg_Run W (t1 ++ [EvDbgNew os_Stdin os_Stdout opts]) l
        /\ dbgNews t' = dbgNews t1 ++ [opts]
        /\ runs t' = S (runs t1)).
Proof.
  unfold runDbg, exec, bind, call, ret, return_.
  destruct (runDbg_options W a t) as [[opts|x] t1] eqn:Ho; simpl.
  - destruct (dbg_New W t1 os_Stdin os_Stdout opts) as [l|err] eqn:Hn;
      simpl; intros [= <- <-].
    + right. right. exists opts, t1, l. observe.
      repeat split; first [reflexivity | assumption].
    + right. left. exists opts, t1, err. observe.
      repeat split; first [reflexivity | assumption].
  - intros [= <- <-]. left. split; [reflexivity|].
    revert Ho. unfold runDbg_options, bind, call, ret, return_.
    intros H. split_run H; inversion H; subst; clear H; observe;
      split; reflexivity.
Qed.

(** The statuses [flag.Parse] exits with. *)
Lemma Parse_exit_codes {A} (f : flag.FlagSet A) n :
  forall args a code,
    (List.length args <= n)%nat ->
    flag.Parse f args a = flag.Exits code -> code = 0 \/ code = 2.
Proof.
  induction n as [|n IH]; intros args a code Hn H.
  - destruct args; [discriminate H|simpl in Hn; lia].
  - destruct args as [|s args']; [discriminate H|].
    simpl in Hn. simpl in H.
    repeat match type of H with
           | flag.Parsed _ _ = flag.Exits _ => discriminate H
           | flag.Exits _ = flag.Exits _ => injection H as <-; auto
           | flag.Parse _ _ _ = flag.Exits _ =>
               apply IH in H; [exact H|simpl in *; lia]
           | context [match ?x with _ => _ end] => destruct x eqn:?
           end.
Qed.

Lemma finish_trace (m : M Conn File DbgConfig SimulateResponse Exit) t :
  snd (finish m t) = snd (exec m t).
Proof.
  unfold finish. destruct (exec m t) as [[code [err|]] t']; reflexivity.
Qed.

(** A run of either mode that [main] leaves with a status ran a session. *)
Lemma finish_runLsp_exit a t code t' :
  finish (runLsp W a) t = (os_Exit code, t') -> runs t' = S (runs t).
Proof.
  unfold finish, runLsp, runLsp_transport, runLsp_options, exec,
    bind, call, ret, return_.
  intros H. split_run H;
    repeat match type of H with
           | context [match ?x with Some _ => _ | None => _ end] =>
               destruct x; simpl in H
           end;
    inversion H; subst; clear H; observe; reflexivity.
Qed.

Lemma finish_runDbg_exit a t code t' :
  finish (runDbg W a) t = (os_Exit code, t') -> runs t' = S (runs t).
Proof.
  unfold finish, runDbg, runDbg_options, exec, bind, call, ret, return_.
  intros H. split_run H;
    repeat match type of H with
           | context [match ?x with Some _ => _ | None => _ end] =>
               destruct x; simpl in H
           end;
    inversion H; subst; clear H; observe; reflexivity.
Qed.

(** X11.  When [main] ends with [os.Exit], either flag parsing ended it,
    with status 0 or 2 and before any call into the world, or a session
    was constructed and run: a failed construction never becomes an exit
    status, [main] panics with its error. *)
Theorem main_exit_means_parse_or_session prog args t code :
  fst (main W prog args t) = os_Exit code ->
  (snd (main W prog args t) = t /\ (code = 0 \/ code = 2))
  \/ runs (snd (main W prog args t)) = S (runs t).
Proof.
  unfold main.
  assert (Hl : forall a,
             fst (finish (runLsp W a) t) = os_Exit code ->
             runs (snd (finish (runLsp W a) t)) = S (runs t)).
  { intros a H. destruct (finish (runLsp W a) t) as [o t1] eqn:E.
    simpl in *. subst o. eapply finish_runLsp_exit; eassumption. }
  assert (Hd : forall a,
             fst (finish (runDbg W a) t) = os_Exit code ->
             runs (snd (finish (runDbg W a) t)) = S (runs t)).
  { intros a H. destruct (finish (runDbg W a) t) as [o t1] eqn:E.
    simpl in *. subst o. eapply finish_runDbg_exit; eassumption. }
  assert (Hp : forall A (f : flag.FlagSet A) l a c,
             flag.Parse f l a = flag.Exits c -> c = 0 \/ c = 2).
  { intros A f l a c. apply (Parse_exit_codes f (List.length l)). lia. }
  destruct args as [|mode args'].
  - destruct (flag.Parse lspFlags [] lspDefaults) as [a r|c] eqn:E.
    + intros H. right. now apply Hl.
    + simpl. intros [= ->]. left. split; [reflexivity|]. eapply Hp, E.
  - destruct (mode =? "dbg")%string.
    + destruct (flag.Parse dbgFlags args' dbgDefaults) as [a r|c] eqn:E.
      * intros H. right. now apply Hd.
      * simpl. intros [= ->]. left. split; [reflexivity|]. eapply Hp, E.
    + destruct (flag.Parse lspFlags (mode :: args') lspDefaults)
        as [a r|c] eqn:E.
      * intros H. right. now apply Hl.
      * simpl. intros [= ->]. left. split; [reflexivity|]. eapply Hp, E.
Qed.

Lemma runLsp_leaves_dbg a t :
  dbgNews (snd (exec (runLsp W a) t)) = dbgNews t.
Proof.
  unfold runLsp, runLsp_transport, runLsp_options, exec,
    bind, call, ret, return_.
  outcomes; observe; reflexivity.
Qed.

Lemma runDbg_leaves_lsp a t :
  dials (snd (exec (runDbg W a) t)) = dials t
  /\ lspNews (snd (exec (runDbg W a) t)) = lspNews t.
Proof.
  unfold runDbg, runDbg_options, exec, bind, call, ret, return_.
  outcomes; observe; split; reflexivity.
Qed.

(** X12.  The first argument alone chooses the mode.  With [dbg] first,
    [main] never dials and never constructs an editor-protocol session,
    whatever follows; with anything else first, or no argument, it never
    constructs a debugger session. *)
Theorem main_dispatch prog t :
  (forall rest,
      dials (snd (main W prog ("dbg"%string :: rest) t)) = dials t
      /\ lspNews (snd (main W prog ("dbg"%string :: rest) t)) = lspNews t)
  /\ (forall args,
        hd_error args <> Some "dbg"%string ->
        dbgNews (snd (main W prog args t)) = dbgNews t).
Proof.
  split.
  - intros rest. unfold main. simpl.
    destruct (flag.Parse dbgFlags rest dbgDefaults) as [a r|c].
    + rewrite finish_trace. apply runDbg_leaves_lsp.
    + split; reflexivity.
  - intros args Hd. unfold main.
    assert (Hl : dbgNews
                   (snd match flag.Parse lspFlags args lspDefaults with
                        | flag.Parsed a _ => finish (runLsp W a) t
                        | flag.Exits code => (os_Exit code, t)
                        end) = dbgNews t).
    { destruct (flag.Parse lspFlags args lspDefaults) as [a r|c].
      - rewrite finish_trace. apply runLsp_leaves_dbg.
      - reflexivity. }
    destruct args as [|mode args']; [exact Hl|].
    destruct (String.eqb_spec mode "dbg") as [->|Hn]; [|exact Hl].
    now elim Hd.
Qed.

(** X13.  The [main] of [cmd/tealsp/main.go] has no debugger mode: for no
    arguments does it construct a debugger session.  It does what the later
    [main] does whenever the first argument is not [dbg]; with [dbg] first,
    which is no flag, it reads no flag at all and runs the editor-protocol
    session with the default arguments. *)
Theorem tealsp_main_has_no_debugger_mode prog t :
  (forall args, dbgNews (snd (tealsp.main W prog args t)) = dbgNews t)
  /\ (forall args,
        hd_error args <> Some "dbg"%string ->
        tealsp.main W prog args t = main W prog args t)
  /\ (forall rest,
        tealsp.main W prog ("dbg"%string :: rest) t
        = finish (runLsp W lspDefaults) t).
Proof.
  split; [|split].
  - intros args. unfold tealsp.main.
    destruct (flag.Parse lspFlags args lspDefaults) as [a r|c].
    + rewrite finish_trace. apply runLsp_leaves_dbg.
    + reflexivity.
  - intros args Hd. unfold tealsp.main, main.
    destruct args as [|mode args']; [reflexivity|].
    destruct (String.eqb_spec mode "dbg") as [->|Hn]; [|reflexivity].
    now elim Hd.
  - intros rest. reflexivity.
Qed.

(** X14.  With [-addr] alone and an address that is not empty, the
    network is the default [tcp]: [main] dials once, [tcp] and that
    address, whatever the address looks like. *)
Theorem main_addr_dials_tcp prog addr t :
  addr <> ""%string ->
  dials (snd (main W prog ["-addr"%string; addr] t))
  = dials t ++ [("tcp"%string, addr)].
Proof.
  intros Ha. apply nonEmpty_true in Ha.
  unfold main. simpl. rewrite finish_trace.
  unfold runLsp, runLsp_transport, runLsp_options, exec,
    bind, call, ret, return_.
  simpl. rewrite Ha. simpl.
  outcomes; observe; reflexivity.
Qed.

End ProcessOutcomes.

(** * The further properties at sample inputs *)


Lemma runLsp_options_handler_last_witness :
  exists opts t',
    runLsp_options (Sample.world [] false true) More.sinkOnly []
    = (inl opts, t')
    /\ exists sink,
        opts = sink ++ [lsp_WithPrepareDiagnosticsHandler
                          (prepareDiagnostics
                             (logic_AssembleString
                                (Sample.world [] false true)))]
        /\ List.length sink = 1%nat.
Proof.
  eexists. eexists. split; [reflexivity|].
  destruct (runLsp_options_handler_last (Sample.world [] false true)
              More.sinkOnly [] _ _ eq_refl)
    as (sink & Ho & [(Hd & _)|(_ & f & _ & Hs & _)]);
    [discriminate Hd|].
  exists sink. split; [exact Ho|]. rewrite Hs. reflexivity.
Defined.


Lemma runDbg_options_algod_witness :
  (exists opts t',
      runDbg_options (Sample.world Sample.files false true)
                     Sample.liveOnly [] = (inl opts, t')
      /\ In (dbg_WithAlgod "http://localhost:4001" "secret") opts)
  /\ (exists opts t',
        runDbg_options (Sample.world Sample.files false true)
                       More.tokenOnly [] = (inl opts, t')
        /\ ~ In (dbg_WithAlgod "" "secret") opts).
Proof.
  split.
  - eexists. eexists. split; [reflexivity|].
    apply (runDbg_options_algod (Sample.world Sample.files false true)
             Sample.liveOnly [] _ _ eq_refl).
    split; [discriminate|split; reflexivity].
  - eexists. eexists. split; [reflexivity|].
    intros Hin.
    apply (runDbg_options_algod (Sample.world Sample.files false true)
             More.tokenOnly [] _ _ eq_refl) in Hin.
    destruct Hin as (Hn & _). now apply Hn.
Defined.

Lemma runDbg_options_payloads_witness :
  exists opts t',
    runDbg_options (Sample.world Sample.files false true)
                   Sample.allFour [] = (inl opts, t')
    /\ In (dbg_WithConfig Sample.cfgBytes) opts
    /\ exists t1 bs,
        os_ReadFile (Sample.world Sample.files false true) t1 "c.json"
        = inl bs
        /\ json_Unmarshal_DbgConfig (Sample.world Sample.files false true)
             (t1 ++ [EvReadFile "c.json"]) bs = inl Sample.cfgBytes.
Proof.
  eexists. eexists. split; [reflexivity|].
  assert (Hin : In (dbg_WithConfig Sample.cfgBytes)
                  [dbg_WithDebug "d.log"%string;
                   dbg_WithConfig Sample.cfgBytes;
                   dbg_WithAlgod "http://localhost:4001" "";
                   dbg_WithReplay Sample.rplBytes])
    by (right; left; reflexivity).
  split; [exact Hin|].
  destruct (runDbg_options_payloads (Sample.world Sample.files false true)
              Sample.allFour [] _ _ eq_refl) as (_ & Hc & _).
  exact (Hc Sample.cfgBytes Hin).
Defined.

Lemma main_exit_means_parse_or_session_witness :
  fst (main (Sample.world [] false true) "tealsp" [] []) = os_Exit 0
  /\ fst (main (Sample.world [] false true) "tealsp"
               ["-nosuchflag"%string] []) = os_Exit 2
  /\ runs (snd (main (Sample.world [] false true) "tealsp" [] [])) = 1%nat.
Proof.
  split; [reflexivity|]. split; [reflexivity|].
  destruct (main_exit_means_parse_or_session (Sample.world [] false true)
              "tealsp" [] [] 0 eq_refl) as [(H & _)|H];
    [discriminate H|exact H].
Defined.

Lemma main_dispatch_witness :
  dbgNews (snd (main (Sample.world [] false true) "tealsp"
                     ["-debug"%string; "x.log"%string] [])) = [].
Proof.
  destruct (main_dispatch (Sample.world [] false true) "tealsp" [])
    as [_ H].
  apply (H ["-debug"%string; "x.log"%string]). discriminate.
Defined.

Lemma tealsp_main_has_no_debugger_mode_witness :
  tealsp.main (Sample.world [] false true) "tealsp"
              ["-addr"%string; "h:1"%string] []
  = main (Sample.world [] false true) "tealsp"
         ["-addr"%string; "h:1"%string] [].
Proof.
  destruct (tealsp_main_has_no_debugger_mode (Sample.world [] false true)
              "tealsp" []) as (_ & H & _).
  apply H. discriminate.
Defined.

Lemma main_addr_dials_tcp_witness :
  "127.0.0.1:9000"%string <> ""%string
  /\ dials (snd (main (Sample.world [] true true) "tealsp"
                      ["-addr"%string; "127.0.0.1:9000"%string] []))
     = [("tcp"%string, "127.0.0.1:9000"%string)].
Proof.
  assert (H : "127.0.0.1:9000"%string <> ""%string) by discriminate.
  split; [exact H|].
  exact (main_addr_dials_tcp (Sample.world [] true true) "tealsp"
           "127.0.0.1:9000" [] H).
Defined.

Lemma runDbg_outcomes_witness :
  exists res t',
    exec (runDbg (Sample.world Sample.files false false) Sample.replayOnly)
         [] = (res, t')
    /\ fst res = -3
    /\ dbgNews t' = [[dbg_WithReplay Sample.rplBytes]]
    /\ runs t' = 0%nat.
Proof.
  eexists. eexists. split; [reflexivity|].
  destruct (runDbg_outcomes (Sample.world Sample.files false false)
              Sample.replayOnly [] _ _ eq_refl)
    as [(H & _)
       |[(opts & t1 & err & Ho & _ & _ & Hn & Hr)
        |(opts & t1 & l & _ & H & _)]];
    try discriminate H.
  injection Ho as <- <-.
  split; [reflexivity|]. split; [exact Hn|exact Hr].
Defined.
